(** * Content-path resolution and change tracking (src/lib/content.js)

    A shallow embedding of [parseCandidateFiles], [parseContentPath],
    [resolveRelativePaths], [resolvePathSymlinks], [resolvedChangedContent]
    and [resolveChangedFiles], and the properties of them that the
    specification states.

    Conventions of the embedding:
    - a JavaScript [throw] is the [Throw] constructor of [result];
    - the [Map<string, number>] that the caller passes by reference is a
      [gmap string Z] passed in and handed back next to the outcome; a
      mutation done before an exception is still visible after it, as it is
      in JavaScript;
    - [mtimeMs] is a finite double and is only ever compared; the finite
      doubles are all integer multiples of 2^-1074, so they embed in [Z]
      with their order, and a time stamp is a [Z];
    - a JavaScript [Set] iterates in insertion order, so it is a
      duplicate-free list that [Set_add] extends at its end;
    - functions of Node.js and of npm packages ([path], [fs], [fast-glob],
      [is-glob], [normalize-path]) and the two helpers of the repository
      that content.js imports from other files ([parseGlob], [flagEnabled])
      are fields of the records [NodeLib] and [FileSystem]. *)

From stdpp Require Import gmap strings list.
From Stdlib Require Import ZArith.

Open Scope Z_scope.
Open Scope list_scope.

(** ** JavaScript values *)

Module JS.

(** An exception value: Node's error code, such as ENOENT. *)
Definition Error := string.

Inductive result (A : Type) : Type :=
| Ok (a : A)
| Throw (e : Error).
Arguments Ok {A} a.
Arguments Throw {A} e.

Definition bind {A B} (m : result A) (k : A -> result B) : result B :=
  match m with
  | Ok a => k a
  | Throw e => Throw e
  end.

(** [try { body } catch { handler }] *)
Definition try_catch {A} (body : result A) (handler : Error -> result A) : result A :=
  match body with
  | Ok a => Ok a
  | Throw e => handler e
  end.

(** The numbers that [prevModified] ranges over: a stored time stamp or
    [-Infinity]. *)
Inductive number : Type :=
| NegInfinity
| Finite (z : Z).

(** [a > b] *)
Definition gt (a b : number) : bool :=
  match a, b with
  | NegInfinity, _ => false
  | Finite _, NegInfinity => true
  | Finite x, Finite y => y <? x
  end.

(** [s.startsWith(p)] *)
Definition startsWith (s p : string) : bool := String.prefix p s.

(** [s.slice(1)] *)
Definition slice1 (s : string) : string :=
  match s with
  | EmptyString => EmptyString
  | String _ r => r
  end.

(** Truthiness of a string: only the empty string is falsy. *)
Definition truthy (s : string) : bool :=
  match s with
  | EmptyString => false
  | String _ _ => true
  end.

(** [set.add(x)] on a [Set] kept in insertion order. *)
Definition Set_add (x : string) (s : list string) : list string :=
  if bool_decide (x ∈ s) then s else s ++ [x].

End JS.
Export JS.

Notation "'let*' x ':=' m 'in' k" := (bind m (fun x => k))
  (at level 10, x name, m at level 100, k at level 200).

(** ** Data model *)

(** [ContentPath] of content.js. [glob] is [string | null]. *)
Record ContentPath : Type := mkContentPath {
  original : string;
  base : string;
  glob : option string;
}.

(** [{ ...contentPath, base: newBase }] *)
Definition withBase (contentPath : ContentPath) (newBase : string) : ContentPath :=
  {| original := original contentPath; base := newBase; glob := glob contentPath |}.

(** An entry of [tailwindConfig.content.files]: [FilePath] is a string,
    [RawFile] is [{ raw, extension? }]. *)
Inductive ContentEntry : Type :=
| FilePath (p : string)
| RawFile (raw : string) (extension : option string).

(** [typeof filePath === 'string'] *)
Definition isFilePath (entry : ContentEntry) : bool :=
  match entry with
  | FilePath _ => true
  | RawFile _ _ => false
  end.

Record Config : Type := mkConfig {
  content_files : list ContentEntry;
  experimental : gmap string bool;
}.

(** [context]: [userConfigPath] is a string or null. *)
Record Context : Type := mkContext {
  userConfigPath : option string;
  tailwindConfig : Config;
}.

(** An element of the list [resolvedChangedContent] returns. *)
Record Content : Type := mkContent {
  content : string;
  extension : string;
}.

(** Pure functions that content.js imports. [path_resolve] takes the list
    of its arguments and reads the working directory of the process when
    none of them is absolute. [parseGlob] returns the base and the glob
    that remains, two strings; [flagEnabled] is read for its truthiness. *)
Record NodeLib : Type := mkNodeLib {
  normalizePath : string -> string;
  isGlob : string -> bool;
  parseGlob : string -> string * string;
  path_resolve : list string -> string;
  path_dirname : string -> string;
  path_extname : string -> string;
  flagEnabled : Config -> string -> bool;
}.

(** The state of the file system, as the synchronous calls observe it. *)
Record FileSystem : Type := mkFileSystem {
  realpathSync : string -> result string;
  statSync_mtimeMs : string -> result Z;
  readFileSync : string -> result string;
  fastGlob_sync : list string -> result (list string);
}.

Section Parsing.

Variable lib : NodeLib.
Variable fs : FileSystem.

(** [resolveRelativePaths], lines 77-93. *)
Definition resolveFrom (context : Context) : list string :=
  match userConfigPath context with
  | Some p =>
      if truthy p && flagEnabled lib (tailwindConfig context) "resolveContentRelativeToConfig"%string
      then [path_dirname lib p]
      else []
  | None => []
  end.

Definition resolveRelativePaths (context : Context) (contentPaths : list ContentPath)
  : list ContentPath :=
  map (fun contentPath =>
         withBase contentPath (path_resolve lib (resolveFrom context ++ [base contentPath])))
      contentPaths.

(** [resolvePathSymlinks], lines 104-115. The body of the [try] either
    returns from the function ([Some]) or falls through ([None]). *)
Definition resolvePathSymlinks (contentPath : ContentPath) : result (list ContentPath) :=
  let* returned := try_catch
    (let* newPath := realpathSync fs (base contentPath) in
     if negb (String.eqb newPath (base contentPath))
     then Ok (Some [contentPath; withBase contentPath newPath])
     else Ok None)
    (fun _ => Ok None) in
  match returned with
  | Some paths => Ok paths
  | None => Ok [contentPath]
  end.

(** [array.flatMap(f)] for a callback that may throw. *)
Fixpoint flatMapM {A B} (f : A -> result (list B)) (l : list A) : result (list B) :=
  match l with
  | [] => Ok []
  | x :: rest =>
      let* ys := f x in
      let* zs := flatMapM f rest in
      Ok (ys ++ zs)
  end.

(** Lines 50-61 of [parseContentPath]: the split of a normalized string
    into base and glob. *)
Definition splitContentPath (filePath : string) : list ContentPath :=
  let filePath := normalizePath lib filePath in
  if isGlob lib filePath
  then let '(base, glob) := parseGlob lib filePath in
       [ {| original := filePath; base := base; glob := Some glob |} ]
  else [ {| original := filePath; base := filePath; glob := None |} ].

(** [parseContentPath], lines 45-67. *)
Definition parseContentPath (context : Context) (filePath : ContentEntry)
  : result (list ContentPath) :=
  match filePath with
  | RawFile _ _ => Ok []
  | FilePath filePath =>
      let paths := splitContentPath filePath in
      let paths := resolveRelativePaths context paths in
      flatMapM resolvePathSymlinks paths
  end.

(** [parseCandidateFiles], lines 33-37. *)
Definition parseCandidateFiles (context : Context) (tailwindConfig : Config)
  : result (list ContentPath) :=
  let files := content_files tailwindConfig in
  flatMapM (fun contentPath => parseContentPath context contentPath) files.

End Parsing.

Section ChangeTracker.

Variable lib : NodeLib.
Variable fs : FileSystem.

(** The element of [paths] that a spec contributes, lines 144-150. An
    empty [glob] is falsy, like [null]. *)
Definition queryPattern (contentPath : ContentPath) : string :=
  if startsWith (original contentPath) "!"
  then original contentPath
  else match glob contentPath with
       | Some g =>
           if truthy g
           then String.append (base contentPath) (String.append "/" g)
           else base contentPath
       | None => base contentPath
       end.

(** [fileModifiedMap.has(file) ? fileModifiedMap.get(file) : -Infinity] *)
Definition prevModifiedOf (fileModifiedMap : gmap string Z) (file : string) : number :=
  match fileModifiedMap !! file with
  | Some m => Finite m
  | None => NegInfinity
  end.

(** The loop of lines 155-163, with the set built so far and the map as
    explicit state. When [statSync] throws, the loop is left with the map
    as mutated so far. *)
Fixpoint scanFiles (files : list string) (changedFiles : list string)
    (fileModifiedMap : gmap string Z) : result (list string) * gmap string Z :=
  match files with
  | [] => (Ok changedFiles, fileModifiedMap)
  | file :: rest =>
      let prevModified := prevModifiedOf fileModifiedMap file in
      match statSync_mtimeMs fs file with
      | Throw e => (Throw e, fileModifiedMap)
      | Ok modified =>
          if gt (Finite modified) prevModified
          then scanFiles rest (Set_add file changedFiles) (<[file := modified]> fileModifiedMap)
          else scanFiles rest changedFiles fileModifiedMap
      end
  end.

(** [resolveChangedFiles], lines 143-166. The result pairs what the call
    returns or throws with the map it leaves behind. The two calls on
    [console] under [env.DEBUG] only measure time and are left out. *)
Definition resolveChangedFiles (candidateFiles : list ContentPath)
    (fileModifiedMap : gmap string Z) : result (list string) * gmap string Z :=
  let paths := map queryPattern candidateFiles in
  match fastGlob_sync fs paths with
  | Throw e => (Throw e, fileModifiedMap)
  | Ok files => scanFiles files [] fileModifiedMap
  end.

(** [typeof item.raw === 'string'] *)
Definition hasStringRaw (item : ContentEntry) : bool :=
  match item with
  | RawFile _ _ => true
  | FilePath _ => false
  end.

(** [({ raw, extension = 'html' }) => ({ content: raw, extension })] on an
    item that passed the filter. *)
Definition rawToContent (item : ContentEntry) : option Content :=
  match item with
  | RawFile raw extension =>
      Some {| content := raw; extension := default "html"%string extension |}
  | FilePath _ => None
  end.

(** Lines 124-126. *)
Definition rawContent (files : list ContentEntry) : list Content :=
  omap rawToContent (List.filter hasStringRaw files).

(** What a file of the changed set adds to the list, lines 129-131. *)
Definition entryOf (changedFile : string) (entry : Content) : Prop :=
  readFileSync fs changedFile = Ok (content entry)
  ∧ extension entry = slice1 (path_extname lib changedFile).

(** The loop of lines 128-132 over the set in insertion order. *)
Fixpoint readChangedFiles (changedFiles : list string) (changedContent : list Content)
  : result (list Content) :=
  match changedFiles with
  | [] => Ok changedContent
  | changedFile :: rest =>
      let* content := readFileSync fs changedFile in
      let extension := slice1 (path_extname lib changedFile) in
      readChangedFiles rest (changedContent ++ [ {| content := content; extension := extension |} ])
  end.

(** [resolvedChangedContent], lines 123-135. *)
Definition resolvedChangedContent (context : Context) (candidateFiles : list ContentPath)
    (fileModifiedMap : gmap string Z) : result (list Content) * gmap string Z :=
  let changedContent := rawContent (content_files (tailwindConfig context)) in
  match resolveChangedFiles candidateFiles fileModifiedMap with
  | (Throw e, fileModifiedMap') => (Throw e, fileModifiedMap')
  | (Ok changedFiles, fileModifiedMap') =>
      (readChangedFiles changedFiles changedContent, fileModifiedMap')
  end.

End ChangeTracker.

(** The raw entries as the specification words them: every raw entry of
    the configuration, in declaration order, with its declared extension,
    or html when it declares none. *)
Fixpoint declaredRawEntries (files : list ContentEntry) : list Content :=
  match files with
  | [] => []
  | FilePath _ :: rest => declaredRawEntries rest
  | RawFile raw (Some ext) :: rest =>
      {| content := raw; extension := ext |} :: declaredRawEntries rest
  | RawFile raw None :: rest =>
      {| content := raw; extension := "html" |} :: declaredRawEntries rest
  end.

(** ** A small project on disk

    The working directory is /proj and the configuration file is
    /proj/cfg/tailwind.config.js. /proj/link is a symbolic link to the
    directory /proj/target; /proj/src/secret.html exists but cannot be
    opened for reading. The functions of [demoLib] are test doubles that
    agree with the packages they stand for on the paths used here. *)

Module Demo.

Definition isGlob (s : string) : bool :=
  startsWith s "!" || bool_decide (s ∈ ["src/*.html"; "src/*"; "link/*.css"]%string).

Definition parseGlob (s : string) : string * string :=
  if String.eqb s "src/*.html" then ("src", "*.html")%string
  else if String.eqb s "src/*" then ("src", "*")%string
  else if String.eqb s "link/*.css" then ("link", "*.css")%string
  else (".", s)%string.

(** [path.resolve]: a later absolute argument wins, relative ones are
    joined from the working directory, a lone dot adds nothing. *)
Definition path_resolve (args : list string) : string :=
  fold_left
    (fun acc a =>
       if startsWith a "/" then a
       else if String.eqb a "." then acc
       else String.append acc (String.append "/" a))
    args "/proj"%string.

Definition path_dirname (p : string) : string :=
  if String.eqb p "/proj/cfg/tailwind.config.js" then "/proj/cfg"%string
  else "."%string.

Definition path_extname (p : string) : string :=
  if bool_decide (p ∈ ["/proj/src/a.html"; "/proj/src/b.html"; "/proj/src/secret.html"]%string)
  then ".html"%string
  else if bool_decide (p ∈ ["/proj/link/a.css"; "/proj/target/a.css"]%string)
  then ".css"%string
  else ""%string.

Definition flagEnabled (config : Config) (flag : string) : bool :=
  default false (experimental config !! flag).

Definition demoLib : NodeLib :=
  mkNodeLib (fun s => s) isGlob parseGlob path_resolve path_dirname path_extname flagEnabled.

Definition realpathSync (p : string) : result string :=
  if String.eqb p "/proj/link" then Ok "/proj/target"%string
  else if bool_decide (p ∈ ["/proj"; "/proj/src"; "/proj/target"; "/proj/src/a.html";
                            "/proj/src/b.html"; "/proj/src/secret.html"]%string)
  then Ok p
  else Throw "ENOENT"%string.

Definition statSync_mtimeMs (p : string) : result Z :=
  if String.eqb p "/proj/src/a.html" then Ok 100
  else if String.eqb p "/proj/src/b.html" then Ok 200
  else if String.eqb p "/proj/src/secret.html" then Ok 300
  else if String.eqb p "/proj/target/a.css" then Ok 400
  else Throw "ENOENT"%string.

Definition readFileSync (p : string) : result string :=
  if String.eqb p "/proj/src/a.html" then Ok "<p class=a>"%string
  else if String.eqb p "/proj/src/b.html" then Ok "<p class=b>"%string
  else if String.eqb p "/proj/src/secret.html" then Throw "EACCES"%string
  else if String.eqb p "/proj/target/a.css" then Ok ".a{}"%string
  else Throw "ENOENT"%string.

(** Two directory listings: one where every match can be read, one that
    also holds the unreadable file. *)
Definition fastGlob_sync (paths : list string) : result (list string) :=
  if bool_decide ("/proj/src/*.html"%string ∈ paths)
  then Ok ["/proj/src/a.html"; "/proj/src/b.html"]%string
  else if bool_decide ("/proj/src/*"%string ∈ paths)
  then Ok ["/proj/src/a.html"; "/proj/src/secret.html"; "/proj/src/b.html"]%string
  else Ok [].

Definition demoFs : FileSystem :=
  mkFileSystem realpathSync statSync_mtimeMs readFileSync fastGlob_sync.

Definition mtime (p : string) : Z :=
  match statSync_mtimeMs p with
  | Ok m => m
  | Throw _ => 0
  end.

Definition demoConfig (flag : bool) : Config :=
  {| content_files :=
       [ FilePath "src/*.html";
         RawFile "<div class=r1>" None;
         FilePath "!link/*.css";
         RawFile "<div class=r2>" (Some "svelte"%string) ];
     experimental := {[ "resolveContentRelativeToConfig"%string := flag ]} |}.

Definition demoContext (flag : bool) : Context :=
  {| userConfigPath := Some "/proj/cfg/tailwind.config.js"%string;
     tailwindConfig := demoConfig flag |}.

(** The same project when /proj is itself a symbolic link to /data/proj. *)
Definition movedFs : FileSystem :=
  mkFileSystem
    (fun p => if String.eqb p "/proj" then Ok "/data/proj"%string else realpathSync p)
    statSync_mtimeMs readFileSync fastGlob_sync.

(** The map after a first scan of /proj/src. *)
Definition seenSrc : gmap string Z :=
  <[ "/proj/src/b.html"%string := 200 ]>
    (<[ "/proj/src/secret.html"%string := 300 ]>
       (<[ "/proj/src/a.html"%string := 100 ]> ∅)).

(** The spec of the exclusion entry, after [resolveRelativePaths]. *)
Definition exclusion : ContentPath :=
  {| original := "!link/*.css"; base := "/proj"; glob := Some "!link/*.css"%string |}.

Definition linkCss : ContentPath :=
  {| original := "link/*.css"; base := "/proj/link"; glob := Some "*.css"%string |}.

Definition missing : ContentPath :=
  {| original := "nowhere"; base := "/proj/nowhere"; glob := None |}.

Definition srcAll : ContentPath :=
  {| original := "src/*"; base := "/proj/src"; glob := Some "*"%string |}.

Definition srcHtml : ContentPath :=
  {| original := "src/*.html"; base := "/proj/src"; glob := Some "*.html"%string |}.

Definition srcDir : ContentPath :=
  {| original := "src"; base := "/proj/src"; glob := None |}.

(** The project a moment later: a.html was saved again and c.html, an
    older file, was moved into /proj/src. *)
Definition touchedStat (p : string) : result Z :=
  if String.eqb p "/proj/src/a.html" then Ok 150
  else if String.eqb p "/proj/src/c.html" then Ok 50
  else statSync_mtimeMs p.

Definition touchedFs : FileSystem :=
  mkFileSystem realpathSync touchedStat readFileSync
    (fun paths =>
       if bool_decide ("/proj/src/*.html"%string ∈ paths)
       then Ok ["/proj/src/a.html"; "/proj/src/b.html"; "/proj/src/c.html"]%string
       else Ok []).

Definition touchedMtime (p : string) : Z :=
  match touchedStat p with
  | Ok m => m
  | Throw _ => 0
  end.

(** The project when gone.html is removed between the glob expansion and
    its [statSync]. *)
Definition racyFs : FileSystem :=
  mkFileSystem realpathSync statSync_mtimeMs readFileSync
    (fun paths =>
       if bool_decide ("/proj/src/*.html"%string ∈ paths)
       then Ok ["/proj/src/a.html"; "/proj/src/gone.html"; "/proj/src/b.html"]%string
       else Ok []).

(** The project when its configuration directory /proj/cfg is a symbolic
    link to /data/cfg; the working directory /proj is a real directory. *)
Definition linkedCfgFs : FileSystem :=
  mkFileSystem
    (fun p => if String.eqb p "/proj/cfg" then Ok "/data/cfg"%string else realpathSync p)
    statSync_mtimeMs readFileSync fastGlob_sync.

(** The spec of the exclusion entry when bases are resolved from the
    configuration directory. *)
Definition cfgExclusion : ContentPath :=
  {| original := "!link/*.css"; base := "/proj/cfg"; glob := Some "!link/*.css"%string |}.

End Demo.

(** ** Symbolic-link expansion *)

Section SymlinkExpander.

Variable fs : FileSystem.

(** The three outcomes of [resolvePathSymlinks], by what [realpathSync]
    does on the base. *)
Lemma resolvePathSymlinks_cases (contentPath : ContentPath) :
  resolvePathSymlinks fs contentPath =
  match realpathSync fs (base contentPath) with
  | Ok newPath =>
      if String.eqb newPath (base contentPath)
      then Ok [contentPath]
      else Ok [contentPath; withBase contentPath newPath]
  | Throw _ => Ok [contentPath]
  end.
Proof.
  unfold resolvePathSymlinks.
  destruct (realpathSync fs (base contentPath)) as [newPath|e]; simpl; [|reflexivity].
  destruct (String.eqb newPath (base contentPath)); reflexivity.
Qed.

Lemma resolvePathSymlinks_differs contentPath newPath :
  realpathSync fs (base contentPath) = Ok newPath ->
  newPath ≠ base contentPath ->
  resolvePathSymlinks fs contentPath = Ok [contentPath; withBase contentPath newPath].
Proof.
  intros Hreal Hne. rewrite resolvePathSymlinks_cases, Hreal.
  apply String.eqb_neq in Hne. now rewrite Hne.
Qed.

Lemma resolvePathSymlinks_same contentPath :
  realpathSync fs (base contentPath) = Ok (base contentPath) ->
  resolvePathSymlinks fs contentPath = Ok [contentPath].
Proof.
  intros Hreal. rewrite resolvePathSymlinks_cases, Hreal.
  now rewrite String.eqb_refl.
Qed.

Lemma resolvePathSymlinks_swallows contentPath e :
  realpathSync fs (base contentPath) = Throw e ->
  resolvePathSymlinks fs contentPath = Ok [contentPath].
Proof. intros Hreal. now rewrite resolvePathSymlinks_cases, Hreal. Qed.

(** It never throws, and what it returns differs from its argument in
    [base] at most. *)
Lemma resolvePathSymlinks_total contentPath :
  ∃ paths, resolvePathSymlinks fs contentPath = Ok paths
    ∧ ∀ s, s ∈ paths → original s = original contentPath ∧ glob s = glob contentPath.
Proof.
  rewrite resolvePathSymlinks_cases.
  destruct (realpathSync fs (base contentPath)) as [newPath|e].
  - destruct (String.eqb newPath (base contentPath)); eexists; split; try reflexivity;
      intros s Hs; repeat (apply elem_of_cons in Hs as [->|Hs]); try done;
      by apply elem_of_nil in Hs.
  - eexists; split; [reflexivity|]. intros s Hs.
    apply elem_of_cons in Hs as [->|Hs]; [done|]. by apply elem_of_nil in Hs.
Qed.

(** C4: for a spec that is not an exclusion, [resolvePathSymlinks] returns
    the spec and a clone with the real path as base when [realpathSync]
    succeeds with a path other than the base; it returns the spec alone
    when the real path is the base, and also when [realpathSync] throws,
    whatever the error: the call then completes normally. *)
Theorem resolvePathSymlinks_non_exclusion (contentPath : ContentPath) :
  startsWith (original contentPath) "!" = false ->
  (∀ newPath, realpathSync fs (base contentPath) = Ok newPath ->
     newPath ≠ base contentPath ->
     resolvePathSymlinks fs contentPath
     = Ok [contentPath;
           {| original := original contentPath;
              base := newPath;
              glob := glob contentPath |}])
  ∧ (realpathSync fs (base contentPath) = Ok (base contentPath) ->
     resolvePathSymlinks fs contentPath = Ok [contentPath])
  ∧ (∀ e, realpathSync fs (base contentPath) = Throw e ->
     resolvePathSymlinks fs contentPath = Ok [contentPath]).
Proof.
  intros _. split; [|split].
  - apply resolvePathSymlinks_differs.
  - apply resolvePathSymlinks_same.
  - apply resolvePathSymlinks_swallows.
Qed.

(** C3, as the code has it: an exclusion spec is expanded like any other.
    [realpathSync] is called on its base; a real path other than the base
    gives the spec and a clone with the real path as base, the base itself
    or a failure gives the spec alone. Every spec returned keeps [original]
    and [glob], so it is still an exclusion and contributes the same
    string to the patterns of [resolveChangedFiles]. *)
Theorem resolvePathSymlinks_exclusion (contentPath : ContentPath) :
  startsWith (original contentPath) "!" = true ->
  resolvePathSymlinks fs contentPath =
    match realpathSync fs (base contentPath) with
    | Ok newPath =>
        if String.eqb newPath (base contentPath)
        then Ok [contentPath]
        else Ok [contentPath;
                 {| original := original contentPath;
                    base := newPath;
                    glob := glob contentPath |}]
    | Throw _ => Ok [contentPath]
    end
  ∧ ∃ paths, resolvePathSymlinks fs contentPath = Ok paths
      ∧ ∀ s, s ∈ paths → queryPattern s = original contentPath.
Proof.
  intros Hexcl. split; [apply resolvePathSymlinks_cases|].
  destruct (resolvePathSymlinks_total contentPath) as (paths & Hpaths & Hkeep).
  exists paths. split; [exact Hpaths|].
  intros s Hs. destruct (Hkeep s Hs) as [Horig _].
  unfold queryPattern. rewrite Horig, Hexcl. reflexivity.
Qed.

End SymlinkExpander.

(** C4 on the demo project: the link, a real directory, a missing path. *)
Lemma resolvePathSymlinks_non_exclusion_witness :
  resolvePathSymlinks Demo.demoFs
      {| original := "link/*.css"; base := "/proj/link"; glob := Some "*.css"%string |}
    = Ok [ {| original := "link/*.css"; base := "/proj/link"; glob := Some "*.css"%string |};
           {| original := "link/*.css"; base := "/proj/target"; glob := Some "*.css"%string |} ]
  ∧ resolvePathSymlinks Demo.demoFs
      {| original := "src/*.html"; base := "/proj/src"; glob := Some "*.html"%string |}
    = Ok [ {| original := "src/*.html"; base := "/proj/src"; glob := Some "*.html"%string |} ]
  ∧ resolvePathSymlinks Demo.demoFs
      {| original := "nowhere"; base := "/proj/nowhere"; glob := None |}
    = Ok [ {| original := "nowhere"; base := "/proj/nowhere"; glob := None |} ].
Proof.
  split; [|split].
  - apply (resolvePathSymlinks_non_exclusion Demo.demoFs Demo.linkCss);
      [reflexivity | reflexivity | discriminate].
  - apply (resolvePathSymlinks_non_exclusion Demo.demoFs Demo.srcHtml); reflexivity.
  - apply (resolvePathSymlinks_non_exclusion Demo.demoFs Demo.missing) with (e := "ENOENT"%string);
      reflexivity.
Defined.

(** C3 does not hold as stated. The flag resolveContentRelativeToConfig is
    on and the configuration directory /proj/cfg is a symbolic link to
    /data/cfg. The entry "!link/*.css" is split into base "." and resolved
    to /proj/cfg; [resolvePathSymlinks] calls [realpathSync] on that base
    and returns a second spec based at /data/cfg. *)
Lemma exclusion_is_expanded :
  startsWith (original Demo.cfgExclusion) "!" = true
  ∧ resolvePathSymlinks Demo.linkedCfgFs
      {| original := "!link/*.css"; base := "/proj/cfg"; glob := Some "!link/*.css"%string |}
    = Ok [ {| original := "!link/*.css"; base := "/proj/cfg";
              glob := Some "!link/*.css"%string |};
           {| original := "!link/*.css"; base := "/data/cfg";
              glob := Some "!link/*.css"%string |} ]
  ∧ resolvePathSymlinks Demo.linkedCfgFs Demo.cfgExclusion ≠ Ok [Demo.cfgExclusion]
  ∧ parseContentPath Demo.demoLib Demo.linkedCfgFs (Demo.demoContext true)
      (FilePath "!link/*.css")
    = Ok [ {| original := "!link/*.css"; base := "/proj/cfg";
              glob := Some "!link/*.css"%string |};
           {| original := "!link/*.css"; base := "/data/cfg";
              glob := Some "!link/*.css"%string |} ].
Proof. repeat split; try reflexivity. discriminate. Qed.

(** C3 as amended, on the same layout. *)
Lemma resolvePathSymlinks_exclusion_witness :
  resolvePathSymlinks Demo.linkedCfgFs
      {| original := "!link/*.css"; base := "/proj/cfg"; glob := Some "!link/*.css"%string |}
    = Ok [ {| original := "!link/*.css"; base := "/proj/cfg";
              glob := Some "!link/*.css"%string |};
           {| original := "!link/*.css"; base := "/data/cfg";
              glob := Some "!link/*.css"%string |} ]
  ∧ ∃ paths,
      resolvePathSymlinks Demo.linkedCfgFs
        {| original := "!link/*.css"; base := "/proj/cfg";
           glob := Some "!link/*.css"%string |} = Ok paths
      ∧ ∀ s, s ∈ paths → queryPattern s = "!link/*.css"%string.
Proof.
  apply (resolvePathSymlinks_exclusion Demo.linkedCfgFs Demo.cfgExclusion). reflexivity.
Defined.

(** ** Parsing and path resolution *)

Section Parser.

Variable lib : NodeLib.
Variable fs : FileSystem.

Lemma flatMapM_total {A B} (f : A -> result (list B)) (l : list A) :
  (∀ x, x ∈ l → ∃ ys, f x = Ok ys) →
  ∃ zs, flatMapM f l = Ok zs.
Proof.
  induction l as [|x rest IH]; intros Hf; simpl.
  - by eexists.
  - destruct (Hf x) as [ys Hys]; [left|]. rewrite Hys. simpl.
    destruct IH as [zs Hzs]; [intros y Hy; apply Hf; by right|].
    rewrite Hzs. simpl. by eexists.
Qed.

Lemma flatMapM_elem {A B} (f : A -> result (list B)) (l : list A) (zs : list B) (z : B) :
  flatMapM f l = Ok zs →
  z ∈ zs ↔ ∃ x ys, x ∈ l ∧ f x = Ok ys ∧ z ∈ ys.
Proof.
  revert zs. induction l as [|x rest IH]; intros zs; simpl.
  - intros [= <-]. split; [by intros ?%elem_of_nil|].
    by intros (x & ys & ?%elem_of_nil & _).
  - destruct (f x) as [ys|e] eqn:Hfx; simpl; [|discriminate].
    destruct (flatMapM f rest) as [zs'|e]; simpl; [|discriminate].
    intros [= <-]. rewrite elem_of_app, (IH zs' eq_refl). split.
    + intros [Hz|(x' & ys' & Hx' & Hfx' & Hz)].
      * exists x, ys. split; [left|done].
      * exists x', ys'. split; [by right|done].
    + intros (x' & ys' & Hx' & Hfx' & Hz).
      apply elem_of_cons in Hx' as [->|Hx'].
      * left. congruence.
      * right. by exists x', ys'.
Qed.

(** Entries that are not strings add nothing to the [flatMap]. *)
Lemma flatMapM_skip {A B} (f : A -> result (list B)) (keep : A -> bool) (l : list A) :
  (∀ x, keep x = false → f x = Ok []) →
  flatMapM f (List.filter keep l) = flatMapM f l.
Proof.
  intros Hskip. induction l as [|x rest IH]; simpl; [reflexivity|].
  destruct (keep x) eqn:Hk; simpl.
  - by rewrite IH.
  - rewrite (Hskip x Hk), IH. simpl. by destruct (flatMapM f rest).
Qed.

Lemma splitContentPath_glob (filePath : string) (s : ContentPath) :
  s ∈ splitContentPath lib filePath →
  original s = normalizePath lib filePath
  ∧ (glob s = None ↔ isGlob lib (normalizePath lib filePath) = false).
Proof.
  unfold splitContentPath.
  destruct (isGlob lib (normalizePath lib filePath)) eqn:Hg.
  - destruct (parseGlob lib (normalizePath lib filePath)) as [b g].
    intros Hs. apply elem_of_cons in Hs as [->|Hs]; [|by apply elem_of_nil in Hs].
    simpl. split; [reflexivity|]. split; discriminate.
  - intros Hs. apply elem_of_cons in Hs as [->|Hs]; [|by apply elem_of_nil in Hs].
    simpl. done.
Qed.

Lemma resolveRelativePaths_elem (context : Context) (paths : list ContentPath) (s : ContentPath) :
  s ∈ resolveRelativePaths lib context paths →
  ∃ s0, s0 ∈ paths ∧ original s = original s0 ∧ glob s = glob s0.
Proof.
  unfold resolveRelativePaths. intros (s0 & -> & Hs0)%list_elem_of_fmap.
  by exists s0.
Qed.

Lemma parseContentPath_total (context : Context) (entry : ContentEntry) :
  ∃ paths, parseContentPath lib fs context entry = Ok paths.
Proof.
  destruct entry as [p|raw ext]; simpl; [|by eexists].
  apply flatMapM_total. intros x _.
  destruct (resolvePathSymlinks_total fs x) as (ys & Hys & _). by exists ys.
Qed.

(** C5: a string that is not a glob once its separators are normalized is
    split into exactly one spec, whose base is the normalized string and
    whose glob is null; and a null glob only comes from such a string, in
    the split and in what [parseContentPath] returns. *)
Theorem literal_path_has_null_glob (context : Context) (filePath : string) :
  (isGlob lib (normalizePath lib filePath) = false →
     splitContentPath lib filePath =
       [ {| original := normalizePath lib filePath;
            base := normalizePath lib filePath;
            glob := None |} ])
  ∧ (∀ s, s ∈ splitContentPath lib filePath → glob s = None →
       isGlob lib (normalizePath lib filePath) = false)
  ∧ (∀ paths s, parseContentPath lib fs context (FilePath filePath) = Ok paths →
       s ∈ paths → glob s = None →
       isGlob lib (normalizePath lib filePath) = false).
Proof.
  split; [|split].
  - intros Hlit. unfold splitContentPath. by rewrite Hlit.
  - intros s Hs Hnull. by apply (splitContentPath_glob filePath s Hs).
  - intros paths s Hparse Hs Hnull. simpl in Hparse.
    apply (flatMapM_elem _ _ _ s Hparse) in Hs as (r & ys & Hr & Hsym & Hs).
    destruct (resolvePathSymlinks_total fs r) as (ys' & Hys' & Hkeep).
    assert (ys' = ys) as -> by congruence.
    destruct (Hkeep s Hs) as [_ Hglob].
    apply resolveRelativePaths_elem in Hr as (s0 & Hs0 & _ & Hglob0).
    apply (splitContentPath_glob filePath s0 Hs0). congruence.
Qed.


(** C10: an entry that is not a string gives no spec; [parseCandidateFiles]
    returns normally, every spec it returns comes from a string entry, and
    it returns the same specs when the other entries are removed from the
    configuration. *)
Theorem raw_entries_give_no_specs (context : Context) (config : Config) :
  (∀ raw ext, parseContentPath lib fs context (RawFile raw ext) = Ok [])
  ∧ ∃ specs, parseCandidateFiles lib fs context config = Ok specs
      ∧ (∀ s, s ∈ specs →
           ∃ p paths, FilePath p ∈ content_files config
             ∧ parseContentPath lib fs context (FilePath p) = Ok paths
             ∧ s ∈ paths)
      ∧ parseCandidateFiles lib fs context
          {| content_files := List.filter isFilePath (content_files config);
             experimental := experimental config |} = Ok specs.
Proof.
  split; [reflexivity|].
  destruct (flatMapM_total (parseContentPath lib fs context) (content_files config))
    as [specs Hspecs]; [intros x _; apply parseContentPath_total|].
  exists specs. unfold parseCandidateFiles. simpl. split; [exact Hspecs|]. split.
  - intros s Hs.
    apply (flatMapM_elem _ _ _ s Hspecs) in Hs as (x & ys & Hx & Hfx & Hs).
    destruct x as [p|raw ext].
    + by exists p, ys.
    + simpl in Hfx. injection Hfx as <-. by apply elem_of_nil in Hs.
  - rewrite flatMapM_skip; [exact Hspecs|].
    intros [p|raw ext]; [discriminate|reflexivity].
Qed.

End Parser.

(** C5 on the demo project: the literal path src. *)
Lemma literal_path_has_null_glob_witness :
  splitContentPath Demo.demoLib "src"
    = [ {| original := "src"; base := "src"; glob := None |} ]
  ∧ isGlob Demo.demoLib "src" = false.
Proof.
  destruct (literal_path_has_null_glob Demo.demoLib Demo.demoFs (Demo.demoContext false) "src")
    as (Hsplit & _ & Hparsed).
  split.
  - apply Hsplit. reflexivity.
  - apply (Hparsed [Demo.srcDir] Demo.srcDir); [reflexivity | left | reflexivity].
Defined.


(** ** Change tracking *)

Section Watermarks.

Variable fs : FileSystem.

Lemma gt_irrefl (z : Z) : gt (Finite z) (Finite z) = false.
Proof. simpl. apply Z.ltb_irrefl. Qed.

Lemma prevModifiedOf_insert_eq (tbl : gmap string Z) (file : string) (m : Z) :
  prevModifiedOf (<[file := m]> tbl) file = Finite m.
Proof. unfold prevModifiedOf. by rewrite lookup_insert_eq. Qed.

Lemma prevModifiedOf_insert_ne (tbl : gmap string Z) (file x : string) (m : Z) :
  x ≠ file → prevModifiedOf (<[file := m]> tbl) x = prevModifiedOf tbl x.
Proof. intros Hne. unfold prevModifiedOf. by rewrite lookup_insert_ne. Qed.

Lemma elem_of_Set_add (x y : string) (s : list string) :
  x ∈ Set_add y s ↔ x = y ∨ x ∈ s.
Proof.
  unfold Set_add. case_bool_decide as Hin.
  - split; [by right|]. by intros [->|?].
  - rewrite elem_of_app, list_elem_of_singleton. tauto.
Qed.

Lemma NoDup_Set_add (y : string) (s : list string) : NoDup s → NoDup (Set_add y s).
Proof.
  intros Hnd. unfold Set_add. case_bool_decide as Hin; [done|].
  apply NoDup_app. split; [done|]. split.
  - intros x Hx ->%list_elem_of_singleton. done.
  - apply NoDup_singleton.
Qed.

(** What the loop over the glob results does when every [statSync]
    succeeds, for any set built so far and any map. *)
Lemma scanFiles_spec (mtime : string → Z) (files : list string) :
  ∀ (acc : list string) (tbl : gmap string Z),
  Forall (λ f, statSync_mtimeMs fs f = Ok (mtime f)) files →
  ∃ changed tbl',
    scanFiles fs files acc tbl = (Ok changed, tbl')
    ∧ (∀ x, x ∈ changed ↔
            x ∈ acc ∨ (x ∈ files ∧ gt (Finite (mtime x)) (prevModifiedOf tbl x) = true))
    ∧ (∀ x, x ∈ files → gt (Finite (mtime x)) (prevModifiedOf tbl x) = true →
            tbl' !! x = Some (mtime x))
    ∧ (∀ x, ¬ (x ∈ files ∧ gt (Finite (mtime x)) (prevModifiedOf tbl x) = true) →
            tbl' !! x = tbl !! x)
    ∧ (NoDup acc → NoDup changed).
Proof.
  induction files as [|file rest IH]; intros acc tbl Hstat; cbn [scanFiles].
  - exists acc, tbl. split; [done|]. split; [|split; [|done]].
    + intros x. split; [by left|]. by intros [?|[?%elem_of_nil _]].
    + by intros x ?%elem_of_nil.
  - apply Forall_cons in Hstat as [Hfile Hrest]. rewrite Hfile.
    destruct (gt (Finite (mtime file)) (prevModifiedOf tbl file)) eqn:Hgt.
    + destruct (IH (Set_add file acc) (<[file := mtime file]> tbl) Hrest)
        as (changed & tbl' & Hrun & Hmem & Hset & Hkeep & Hnd).
      exists changed, tbl'. split; [done|].
      assert (Hfile' : tbl' !! file = Some (mtime file)).
      { rewrite Hkeep; [apply lookup_insert_eq|].
        intros [_ Habs]. by rewrite prevModifiedOf_insert_eq, gt_irrefl in Habs. }
      split; [|split; [|split]].
      * intros x. rewrite Hmem, elem_of_Set_add, elem_of_cons.
        destruct (decide (x = file)) as [->|Hne].
        { split; [|by left; left]. intros _. right. split; [by left|done]. }
        rewrite (prevModifiedOf_insert_ne _ _ _ _ Hne). tauto.
      * intros x Hx Hnew. destruct (decide (x = file)) as [->|Hne]; [done|].
        apply elem_of_cons in Hx as [?|Hx]; [done|].
        apply Hset; [done|]. by rewrite prevModifiedOf_insert_ne.
      * intros x Hnot. destruct (decide (x = file)) as [->|Hne].
        { exfalso. apply Hnot. split; [by left|done]. }
        rewrite Hkeep; [by rewrite lookup_insert_ne|].
        rewrite prevModifiedOf_insert_ne by done.
        intros [Hx Hnew]. apply Hnot. split; [by right|done].
      * intros Hacc. by apply Hnd, NoDup_Set_add.
    + destruct (IH acc tbl Hrest) as (changed & tbl' & Hrun & Hmem & Hset & Hkeep & Hnd).
      exists changed, tbl'. split; [done|]. split; [|split; [|split; [|done]]].
      * intros x. rewrite Hmem, elem_of_cons. split.
        { intros [?|[? ?]]; [by left|]. right. split; [by right|done]. }
        intros [?|[[->|?] Hnew]]; [by left| congruence |]. by right.
      * intros x Hx Hnew. apply elem_of_cons in Hx as [->|Hx]; [congruence|].
        by apply Hset.
      * intros x Hnot. apply Hkeep. intros [Hx Hnew]. apply Hnot.
        split; [by right|done].
Qed.

(** A scan in which no file is newer than its watermark changes nothing. *)
Lemma scanFiles_nothing_newer (mtime : string → Z) (files : list string)
    (acc : list string) (tbl : gmap string Z) :
  Forall (λ f, statSync_mtimeMs fs f = Ok (mtime f)) files →
  (∀ x, x ∈ files → gt (Finite (mtime x)) (prevModifiedOf tbl x) = false) →
  scanFiles fs files acc tbl = (Ok acc, tbl).
Proof.
  induction files as [|file rest IH]; intros Hstat Hold; cbn [scanFiles]; [done|].
  apply Forall_cons in Hstat as [Hfile Hrest]. rewrite Hfile.
  rewrite (Hold file) by left. apply IH; [done|].
  intros x Hx. apply Hold. by right.
Qed.

(** The map never lets a scanned file behind its time stamp: after the
    loop no scanned file is newer than its watermark. *)
Lemma scanFiles_settled (mtime : string → Z) (files : list string)
    (acc changed : list string) (tbl tbl' : gmap string Z) :
  Forall (λ f, statSync_mtimeMs fs f = Ok (mtime f)) files →
  scanFiles fs files acc tbl = (Ok changed, tbl') →
  ∀ x, x ∈ files → gt (Finite (mtime x)) (prevModifiedOf tbl' x) = false.
Proof.
  intros Hstat Hrun x Hx.
  destruct (scanFiles_spec mtime files acc tbl Hstat)
    as (changed0 & tbl0 & Hrun0 & _ & Hset & Hkeep & _).
  assert (tbl0 = tbl') as -> by congruence.
  destruct (gt (Finite (mtime x)) (prevModifiedOf tbl x)) eqn:Hnew.
  - unfold prevModifiedOf. rewrite (Hset x Hx Hnew). apply gt_irrefl.
  - unfold prevModifiedOf. rewrite Hkeep; [exact Hnew|].
    intros [_ Habs]. congruence.
Qed.

(** A second scan of the same file system with the map the first one left
    finds nothing and leaves the map as it is. *)
Lemma resolveChangedFiles_settled (mtime : string → Z) (candidateFiles : list ContentPath)
    (files changed : list string) (tbl tbl' : gmap string Z) :
  fastGlob_sync fs (map queryPattern candidateFiles) = Ok files →
  Forall (λ f, statSync_mtimeMs fs f = Ok (mtime f)) files →
  resolveChangedFiles fs candidateFiles tbl = (Ok changed, tbl') →
  resolveChangedFiles fs candidateFiles tbl' = (Ok [], tbl').
Proof.
  unfold resolveChangedFiles. intros -> Hstat Hrun.
  apply (scanFiles_nothing_newer mtime); [done|].
  by apply (scanFiles_settled mtime files [] changed tbl tbl').
Qed.

(** The test of line 159 on the value of line 156 is: no entry for the
    file, or an entry strictly below its time stamp. *)
Lemma gt_prevModifiedOf (tbl : gmap string Z) (file : string) (modified : Z) :
  gt (Finite modified) (prevModifiedOf tbl file) = true
  ↔ match tbl !! file with
    | Some w => w < modified
    | None => True
    end.
Proof.
  unfold prevModifiedOf. destruct (tbl !! file) as [w|]; simpl.
  - apply Z.ltb_lt.
  - done.
Qed.

(** C1: when the glob expansion and every [statSync] succeed,
    [resolveChangedFiles] returns a set that holds a file of the expansion
    exactly when its time stamp is strictly greater than its watermark in
    the map as passed (minus infinity when it has none); the map it leaves
    holds the new time stamp for the files of the set and is unchanged at
    every other file. *)
Theorem resolveChangedFiles_watermark (mtime : string → Z)
    (candidateFiles : list ContentPath) (files : list string) (tbl : gmap string Z) :
  fastGlob_sync fs (map queryPattern candidateFiles) = Ok files →
  Forall (λ f, statSync_mtimeMs fs f = Ok (mtime f)) files →
  ∃ changed tbl',
    resolveChangedFiles fs candidateFiles tbl = (Ok changed, tbl')
    ∧ (∀ file, file ∈ files →
         (file ∈ changed ↔ match tbl !! file with
                           | Some w => w < mtime file
                           | None => True
                           end)
         ∧ (file ∈ changed → tbl' !! file = Some (mtime file))
         ∧ (file ∉ changed → tbl' !! file = tbl !! file))
    ∧ (∀ file, file ∉ files → (file ∉ changed) ∧ tbl' !! file = tbl !! file).
Proof.
  intros Hglob Hstat. unfold resolveChangedFiles. rewrite Hglob.
  destruct (scanFiles_spec mtime files [] tbl Hstat)
    as (changed & tbl' & Hrun & Hmem & Hset & Hkeep & _).
  exists changed, tbl'. split; [exact Hrun|]. split.
  - intros file Hfile.
    assert (Hiff : file ∈ changed ↔ gt (Finite (mtime file)) (prevModifiedOf tbl file) = true).
    { rewrite Hmem. split; [|by right].
      intros [Habs|[_ Hnew]]; [by apply elem_of_nil in Habs | done]. }
    split; [by rewrite <- gt_prevModifiedOf|]. split.
    + intros Hin. apply Hset; [done|]. by apply Hiff.
    + intros Hout. apply Hkeep. intros [_ Hnew]. by apply Hout, Hiff.
  - intros file Hfile. split.
    + rewrite Hmem. intros [Habs|[Habs _]]; [by apply elem_of_nil in Habs | done].
    + apply Hkeep. by intros [Habs _].
Qed.

(** C2: from an empty map, when the glob expansion and every [statSync]
    succeed, the first call returns exactly the files of the expansion,
    each once; a second call on the same file system, with the same specs
    and the map the first call left, returns the empty set. *)
Theorem resolveChangedFiles_twice (mtime : string → Z)
    (candidateFiles : list ContentPath) (files : list string) :
  fastGlob_sync fs (map queryPattern candidateFiles) = Ok files →
  Forall (λ f, statSync_mtimeMs fs f = Ok (mtime f)) files →
  ∃ changed tbl1,
    resolveChangedFiles fs candidateFiles ∅ = (Ok changed, tbl1)
    ∧ (∀ file, file ∈ changed ↔ file ∈ files)
    ∧ NoDup changed
    ∧ resolveChangedFiles fs candidateFiles tbl1 = (Ok [], tbl1).
Proof.
  intros Hglob Hstat.
  destruct (scanFiles_spec mtime files [] ∅ Hstat)
    as (changed & tbl1 & Hrun & Hmem & _ & _ & Hnd).
  assert (Hfirst : resolveChangedFiles fs candidateFiles ∅ = (Ok changed, tbl1)).
  { unfold resolveChangedFiles. by rewrite Hglob. }
  exists changed, tbl1. split; [exact Hfirst|]. split; [|split].
  - intros file. rewrite Hmem. split.
    + intros [Habs|[Hin _]]; [by apply elem_of_nil in Habs | done].
    + intros Hin. right. split; [done|]. unfold prevModifiedOf.
      by rewrite lookup_empty.
  - apply Hnd, NoDup_nil_2.
  - by apply (resolveChangedFiles_settled mtime candidateFiles files changed ∅ tbl1).
Qed.

End Watermarks.

(** C1 on the demo project: a.html was seen at its present time stamp 100,
    b.html, at 200, was never seen. The call returns b.html alone and
    writes 200 for it; the entry of a.html stays at 100. *)
Lemma resolveChangedFiles_watermark_witness :
  resolveChangedFiles Demo.demoFs [Demo.srcHtml] {[ "/proj/src/a.html"%string := 100 ]}
    = (Ok ["/proj/src/b.html"%string],
       <[ "/proj/src/b.html"%string := 200 ]> {[ "/proj/src/a.html"%string := 100 ]})
  ∧ ("/proj/src/a.html"%string ∈ ["/proj/src/b.html"%string] ↔ 100 < 100)
  ∧ ("/proj/src/b.html"%string ∈ ["/proj/src/b.html"%string] ↔ True)
  ∧ (<[ "/proj/src/b.html"%string := 200 ]>
       ({[ "/proj/src/a.html"%string := 100 ]} : gmap string Z)) !! "/proj/src/b.html"%string
    = Some 200
  ∧ (<[ "/proj/src/b.html"%string := 200 ]>
       ({[ "/proj/src/a.html"%string := 100 ]} : gmap string Z)) !! "/proj/src/a.html"%string
    = Some 100.
Proof.
  destruct (resolveChangedFiles_watermark Demo.demoFs Demo.mtime [Demo.srcHtml]
              ["/proj/src/a.html"; "/proj/src/b.html"]%string
              {[ "/proj/src/a.html"%string := 100 ]})
    as (changed & tbl' & Hrun & Hlisted & _).
  - reflexivity.
  - repeat constructor.
  - assert (Heval : resolveChangedFiles Demo.demoFs [Demo.srcHtml]
                      {[ "/proj/src/a.html"%string := 100 ]}
                    = (Ok ["/proj/src/b.html"%string],
                       <[ "/proj/src/b.html"%string := 200 ]>
                         {[ "/proj/src/a.html"%string := 100 ]}))
      by (vm_compute; reflexivity).
    rewrite Heval in Hrun. injection Hrun as <- <-.
    destruct (Hlisted "/proj/src/a.html"%string) as (Ha & _ & Hakeep); [left|].
    destruct (Hlisted "/proj/src/b.html"%string) as (Hb & Hbset & _); [right; left|].
    split; [exact Heval|]. split; [exact Ha|]. split; [exact Hb|]. split.
    + apply Hbset. left.
    + rewrite Hakeep; [reflexivity|]. rewrite Ha. vm_compute. discriminate.
Defined.

(** C2 on the demo project. *)
Lemma resolveChangedFiles_twice_witness :
  ∃ changed tbl1,
    resolveChangedFiles Demo.demoFs [Demo.srcHtml] ∅ = (Ok changed, tbl1)
    ∧ (∀ file, file ∈ changed ↔ file ∈ ["/proj/src/a.html"; "/proj/src/b.html"]%string)
    ∧ NoDup changed
    ∧ resolveChangedFiles Demo.demoFs [Demo.srcHtml] tbl1 = (Ok [], tbl1).
Proof.
  apply (resolveChangedFiles_twice Demo.demoFs Demo.mtime [Demo.srcHtml]
           ["/proj/src/a.html"; "/proj/src/b.html"]%string).
  - reflexivity.
  - repeat constructor.
Defined.

(** ** Reading the changed files *)

Section ChangedContent.

Variable lib : NodeLib.
Variable fs : FileSystem.

(** The filter and map of lines 124-126 give the entries the
    specification describes. *)
Lemma rawContent_declared (files : list ContentEntry) :
  rawContent files = declaredRawEntries files.
Proof.
  unfold rawContent. induction files as [|[p|raw [ext|]] rest IH]; simpl.
  - reflexivity.
  - exact IH.
  - by rewrite <- IH.
  - by rewrite <- IH.
Qed.

Lemma readChangedFiles_Ok (changedFiles : list string) :
  ∀ (acc contents : list Content),
  readChangedFiles lib fs changedFiles acc = Ok contents →
  ∃ fileEntries, contents = acc ++ fileEntries ∧ Forall2 (entryOf lib fs) changedFiles fileEntries.
Proof.
  induction changedFiles as [|file rest IH]; intros acc contents; simpl.
  - intros [= <-]. exists []. split; [by rewrite app_nil_r | constructor].
  - destruct (readFileSync fs file) as [text|e] eqn:Hread; simpl; [|discriminate].
    intros Hrest. apply IH in Hrest as (fileEntries & -> & Hall).
    eexists (_ :: fileEntries). split; [by rewrite <- app_assoc|].
    constructor; [|exact Hall]. by split.
Qed.

Lemma readChangedFiles_readable (changedFiles : list string) :
  ∀ (acc : list Content),
  Forall (λ f, ∃ text, readFileSync fs f = Ok text) changedFiles →
  ∃ contents, readChangedFiles lib fs changedFiles acc = Ok contents.
Proof.
  induction changedFiles as [|file rest IH]; intros acc Hall; simpl.
  - by eexists.
  - apply Forall_cons in Hall as [[text Hread] Hrest]. rewrite Hread. simpl.
    by apply IH.
Qed.

(** The first read that throws ends the loop with its exception. *)
Lemma readChangedFiles_Throw (changedFiles : list string) :
  ∀ (acc : list Content) (file : string) (e : Error),
  file ∈ changedFiles → readFileSync fs file = Throw e →
  ∃ file' e', file' ∈ changedFiles ∧ readFileSync fs file' = Throw e'
    ∧ readChangedFiles lib fs changedFiles acc = Throw e'.
Proof.
  induction changedFiles as [|first rest IH]; intros acc file e Hin Hread.
  - by apply elem_of_nil in Hin.
  - simpl. destruct (readFileSync fs first) as [text|e1] eqn:Hfirst; simpl.
    + apply elem_of_cons in Hin as [->|Hin]; [congruence|].
      destruct (IH (acc ++ [ {| content := text;
                                 extension := slice1 (path_extname lib first) |} ])
                   file e Hin Hread) as (file' & e' & Hin' & Hread' & Hrun).
      exists file', e'. split; [by right|done].
    + exists first, e1. split; [by left|done].
Qed.

(** The map [resolvedChangedContent] leaves is the one [resolveChangedFiles]
    leaves, whatever the reads do. *)
Lemma resolvedChangedContent_map (context : Context) (candidateFiles : list ContentPath)
    (tbl : gmap string Z) :
  (resolvedChangedContent lib fs context candidateFiles tbl).2
  = (resolveChangedFiles fs candidateFiles tbl).2.
Proof.
  unfold resolvedChangedContent.
  by destruct (resolveChangedFiles fs candidateFiles tbl) as [[changed|e] tbl'].
Qed.

Lemma resolvedChangedContent_reads (context : Context) (candidateFiles : list ContentPath)
    (tbl tbl' : gmap string Z) (changed : list string) :
  resolveChangedFiles fs candidateFiles tbl = (Ok changed, tbl') →
  resolvedChangedContent lib fs context candidateFiles tbl
  = (readChangedFiles lib fs changed (rawContent (content_files (tailwindConfig context))), tbl').
Proof. unfold resolvedChangedContent. by intros ->. Qed.

(** C7: whenever [resolvedChangedContent] returns, the list is the raw
    entries of the configuration, in declaration order and with html for a
    missing extension, followed by one entry per changed file; it returns
    whenever the scan succeeds and the changed files can be read; and when
    no file changed it returns the raw entries alone. *)
Theorem raw_entries_come_first (context : Context) (candidateFiles : list ContentPath)
    (tbl : gmap string Z) :
  (∀ contents tbl',
     resolvedChangedContent lib fs context candidateFiles tbl = (Ok contents, tbl') →
     ∃ changed fileEntries,
       resolveChangedFiles fs candidateFiles tbl = (Ok changed, tbl')
       ∧ contents = declaredRawEntries (content_files (tailwindConfig context)) ++ fileEntries
       ∧ Forall2 (entryOf lib fs) changed fileEntries)
  ∧ (∀ changed tbl',
       resolveChangedFiles fs candidateFiles tbl = (Ok changed, tbl') →
       Forall (λ f, ∃ text, readFileSync fs f = Ok text) changed →
       ∃ contents,
         resolvedChangedContent lib fs context candidateFiles tbl = (Ok contents, tbl'))
  ∧ (∀ tbl',
       resolveChangedFiles fs candidateFiles tbl = (Ok [], tbl') →
       resolvedChangedContent lib fs context candidateFiles tbl
       = (Ok (declaredRawEntries (content_files (tailwindConfig context))), tbl')).
Proof.
  split; [|split].
  - intros contents tbl' Hrun.
    destruct (resolveChangedFiles fs candidateFiles tbl) as [[changed|e] tbl0] eqn:Hscan.
    + rewrite (resolvedChangedContent_reads context _ _ _ _ Hscan) in Hrun.
      injection Hrun as Hread <-.
      apply readChangedFiles_Ok in Hread as (fileEntries & -> & Hall).
      exists changed, fileEntries. by rewrite rawContent_declared.
    + unfold resolvedChangedContent in Hrun. rewrite Hscan in Hrun. discriminate.
  - intros changed tbl' Hscan Hreadable.
    rewrite (resolvedChangedContent_reads context _ _ _ _ Hscan).
    destruct (readChangedFiles_readable changed
                (rawContent (content_files (tailwindConfig context))) Hreadable)
      as [contents ->].
    by exists contents.
  - intros tbl' Hscan.
    rewrite (resolvedChangedContent_reads context _ _ _ _ Hscan). simpl.
    by rewrite rawContent_declared.
Qed.

(** C8: when a file of the set [resolveChangedFiles] returns cannot be
    read, [resolvedChangedContent] throws: its outcome is the exception of
    a [readFileSync] on a file of that set, and no list is returned. *)
Theorem read_failure_is_fatal (context : Context) (candidateFiles : list ContentPath)
    (tbl tbl' : gmap string Z) (changed : list string) (file : string) (e : Error) :
  resolveChangedFiles fs candidateFiles tbl = (Ok changed, tbl') →
  file ∈ changed →
  readFileSync fs file = Throw e →
  ∃ file' e',
    file' ∈ changed
    ∧ readFileSync fs file' = Throw e'
    ∧ resolvedChangedContent lib fs context candidateFiles tbl = (Throw e', tbl').
Proof.
  intros Hscan Hin Hread.
  destruct (readChangedFiles_Throw changed
              (rawContent (content_files (tailwindConfig context))) file e Hin Hread)
    as (file' & e' & Hin' & Hread' & Hrun).
  exists file', e'. split; [done|]. split; [done|].
  by rewrite (resolvedChangedContent_reads context _ _ _ _ Hscan), Hrun.
Qed.

(** C9: the map is brought up to date for the whole scan before the first
    file is read. When a read then throws, the exception leaves the map
    with the new time stamp of every changed file, also of those whose
    content was not returned, and a retry on the same file system reports
    no file: it returns the raw entries alone. *)
Theorem watermarks_advance_before_reads (mtime : string → Z) (context : Context)
    (candidateFiles : list ContentPath) (files changed : list string)
    (tbl tbl' : gmap string Z) (file : string) (e : Error) :
  fastGlob_sync fs (map queryPattern candidateFiles) = Ok files →
  Forall (λ f, statSync_mtimeMs fs f = Ok (mtime f)) files →
  resolveChangedFiles fs candidateFiles tbl = (Ok changed, tbl') →
  file ∈ changed →
  readFileSync fs file = Throw e →
  (∃ e', resolvedChangedContent lib fs context candidateFiles tbl = (Throw e', tbl'))
  ∧ (∀ f, f ∈ changed →
       gt (Finite (mtime f)) (prevModifiedOf tbl f) = true ∧ tbl' !! f = Some (mtime f))
  ∧ resolveChangedFiles fs candidateFiles tbl' = (Ok [], tbl')
  ∧ resolvedChangedContent lib fs context candidateFiles tbl'
    = (Ok (rawContent (content_files (tailwindConfig context))), tbl').
Proof.
  intros Hglob Hstat Hscan Hin Hread.
  assert (Hretry : resolveChangedFiles fs candidateFiles tbl' = (Ok [], tbl'))
    by apply (resolveChangedFiles_settled fs mtime candidateFiles files changed tbl tbl'
                Hglob Hstat Hscan).
  split; [|split; [|split]].
  - destruct (readChangedFiles_Throw changed
                (rawContent (content_files (tailwindConfig context))) file e Hin Hread)
      as (file' & e' & _ & _ & Hrun).
    exists e'. by rewrite (resolvedChangedContent_reads context _ _ _ _ Hscan), Hrun.
  - intros f Hf. unfold resolveChangedFiles in Hscan. rewrite Hglob in Hscan.
    destruct (scanFiles_spec fs mtime files [] tbl Hstat)
      as (changed0 & tbl0 & Hrun0 & Hmem & Hset & _ & _).
    assert (changed0 = changed ∧ tbl0 = tbl') as [-> ->] by (split; congruence).
    apply Hmem in Hf as [Habs|[Hfiles Hnew]]; [by apply elem_of_nil in Habs|].
    split; [exact Hnew|]. by apply Hset.
  - exact Hretry.
  - by rewrite (resolvedChangedContent_reads context _ _ _ _ Hretry).
Qed.

End ChangedContent.

(** C7 on the demo project: two raw entries and two changed files, then
    the same configuration with a spec that matches nothing. *)
Lemma raw_entries_come_first_witness :
  (∃ changed fileEntries,
     resolveChangedFiles Demo.demoFs [Demo.srcHtml] ∅
       = (Ok changed, (resolveChangedFiles Demo.demoFs [Demo.srcHtml] ∅).2)
     ∧ [ {| content := "<div class=r1>"; extension := "html" |};
         {| content := "<div class=r2>"; extension := "svelte" |};
         {| content := "<p class=a>"; extension := "html" |};
         {| content := "<p class=b>"; extension := "html" |} ]
       = declaredRawEntries (content_files (Demo.demoConfig false)) ++ fileEntries
     ∧ Forall2 (entryOf Demo.demoLib Demo.demoFs) changed fileEntries)
  ∧ resolvedChangedContent Demo.demoLib Demo.demoFs (Demo.demoContext false) [Demo.missing] ∅
    = (Ok [ {| content := "<div class=r1>"; extension := "html" |};
            {| content := "<div class=r2>"; extension := "svelte" |} ], ∅).
Proof.
  split.
  - apply (raw_entries_come_first Demo.demoLib Demo.demoFs (Demo.demoContext false)
             [Demo.srcHtml] ∅).
    vm_compute. reflexivity.
  - apply (raw_entries_come_first Demo.demoLib Demo.demoFs (Demo.demoContext false)
             [Demo.missing] ∅).
    reflexivity.
Defined.

(** C8 on the demo project: secret.html is matched but cannot be read. *)
Lemma read_failure_is_fatal_witness :
  ∃ file' e',
    file' ∈ ["/proj/src/a.html"; "/proj/src/secret.html"; "/proj/src/b.html"]%string
    ∧ readFileSync Demo.demoFs file' = Throw e'
    ∧ resolvedChangedContent Demo.demoLib Demo.demoFs (Demo.demoContext false) [Demo.srcAll] ∅
      = (Throw e', Demo.seenSrc).
Proof.
  apply (read_failure_is_fatal Demo.demoLib Demo.demoFs (Demo.demoContext false)
           [Demo.srcAll] ∅ Demo.seenSrc
           ["/proj/src/a.html"; "/proj/src/secret.html"; "/proj/src/b.html"]%string
           "/proj/src/secret.html"%string "EACCES"%string).
  - vm_compute. reflexivity.
  - right. left.
  - reflexivity.
Defined.

(** C9 on the demo project: the read of secret.html throws after a.html
    was read and before b.html is; all three watermarks are set, and the
    retry returns the raw entries only. *)
Lemma watermarks_advance_before_reads_witness :
  (∃ e', resolvedChangedContent Demo.demoLib Demo.demoFs (Demo.demoContext false)
           [Demo.srcAll] ∅ = (Throw e', Demo.seenSrc))
  ∧ (∀ f, f ∈ ["/proj/src/a.html"; "/proj/src/secret.html"; "/proj/src/b.html"]%string →
       gt (Finite (Demo.mtime f)) (prevModifiedOf ∅ f) = true
       ∧ Demo.seenSrc !! f = Some (Demo.mtime f))
  ∧ resolveChangedFiles Demo.demoFs [Demo.srcAll] Demo.seenSrc = (Ok [], Demo.seenSrc)
  ∧ resolvedChangedContent Demo.demoLib Demo.demoFs (Demo.demoContext false)
      [Demo.srcAll] Demo.seenSrc
    = (Ok (rawContent (content_files (tailwindConfig (Demo.demoContext false)))), Demo.seenSrc).
Proof.
  apply (watermarks_advance_before_reads Demo.demoLib Demo.demoFs Demo.mtime
           (Demo.demoContext false) [Demo.srcAll]
           ["/proj/src/a.html"; "/proj/src/secret.html"; "/proj/src/b.html"]%string
           ["/proj/src/a.html"; "/proj/src/secret.html"; "/proj/src/b.html"]%string
           ∅ Demo.seenSrc "/proj/src/secret.html"%string "EACCES"%string).
  - reflexivity.
  - repeat constructor.
  - vm_compute. reflexivity.
  - right. left.
  - reflexivity.
Defined.

(** ** Further properties of the scan *)

Section ScanInvariants.

Variable fs : FileSystem.

(** The loop over a concatenation is the loop over the first part followed,
    unless that threw, by the loop over the second. *)
Lemma scanFiles_app (pre rest : list string) :
  ∀ (acc : list string) (tbl : gmap string Z),
  scanFiles fs (pre ++ rest) acc tbl =
  match scanFiles fs pre acc tbl with
  | (Ok acc', tbl') => scanFiles fs rest acc' tbl'
  | (Throw e, tbl') => (Throw e, tbl')
  end.
Proof.
  induction pre as [|file pre IH]; intros acc tbl; cbn [scanFiles app]; [reflexivity|].
  destruct (statSync_mtimeMs fs file) as [modified|e]; [|reflexivity].
  destruct (gt (Finite modified) (prevModifiedOf tbl file)); apply IH.
Qed.

Lemma scanFiles_monotone (files : list string) :
  ∀ (acc : list string) (tbl : gmap string Z) (f : string) (w : Z),
  tbl !! f = Some w →
  ∃ w', (scanFiles fs files acc tbl).2 !! f = Some w' ∧ w ≤ w'.
Proof.
  induction files as [|file rest IH]; intros acc tbl f w Hf; cbn [scanFiles].
  - exists w. split; [exact Hf | lia].
  - destruct (statSync_mtimeMs fs file) as [modified|e].
    + destruct (gt (Finite modified) (prevModifiedOf tbl file)) eqn:Hgt.
      * destruct (decide (f = file)) as [->|Hne].
        -- unfold prevModifiedOf in Hgt. rewrite Hf in Hgt. simpl in Hgt.
           apply Z.ltb_lt in Hgt.
           destruct (IH (Set_add file acc) (<[file := modified]> tbl) file modified)
             as (w' & Hw' & Hle); [apply lookup_insert_eq|].
           exists w'. split; [exact Hw' | lia].
        -- apply IH. by rewrite lookup_insert_ne.
      * by apply IH.
    + exists w. split; [exact Hf | lia].
Qed.

Lemma scanFiles_set (files : list string) :
  ∀ (acc changed : list string) (tbl tbl' : gmap string Z),
  scanFiles fs files acc tbl = (Ok changed, tbl') →
  (NoDup acc → NoDup changed) ∧ (∀ x, x ∈ changed → x ∈ acc ∨ x ∈ files).
Proof.
  induction files as [|file rest IH]; intros acc changed tbl tbl'; cbn [scanFiles].
  - intros [= <- <-]. split; [done|]. intros x Hx. by left.
  - destruct (statSync_mtimeMs fs file) as [modified|e]; [|discriminate].
    destruct (gt (Finite modified) (prevModifiedOf tbl file)); intros Hrun;
      apply IH in Hrun as [Hnd Hsub].
    + split; [intros Hacc; by apply Hnd, NoDup_Set_add|].
      intros x Hx. apply Hsub in Hx as [Hx|Hx].
      * apply elem_of_Set_add in Hx as [->|Hx]; [right; left | by left].
      * right. by right.
    + split; [done|]. intros x Hx. apply Hsub in Hx as [Hx|Hx]; [by left|].
      right. by right.
Qed.

(** X1: whatever the outcome of [resolveChangedFiles], also an exception,
    the map it leaves still has an entry for every file that had one, and
    that entry is not smaller than before: entries are never removed and a
    watermark never moves backwards. [resolvedChangedContent] leaves the
    same map. *)
Theorem watermarks_never_regress (lib : NodeLib) (context : Context)
    (candidateFiles : list ContentPath) (tbl : gmap string Z) (f : string) (w : Z) :
  tbl !! f = Some w →
  (∃ w', (resolveChangedFiles fs candidateFiles tbl).2 !! f = Some w' ∧ w ≤ w')
  ∧ (∃ w', (resolvedChangedContent lib fs context candidateFiles tbl).2 !! f = Some w'
           ∧ w ≤ w').
Proof.
  intros Hf.
  assert (Hscan : ∃ w', (resolveChangedFiles fs candidateFiles tbl).2 !! f = Some w' ∧ w ≤ w').
  { unfold resolveChangedFiles.
    destruct (fastGlob_sync fs (map queryPattern candidateFiles)) as [files|e].
    - by apply scanFiles_monotone.
    - exists w. split; [exact Hf | lia]. }
  split; [exact Hscan|]. by rewrite resolvedChangedContent_map.
Qed.

(** X2: after a scan that succeeds, the watermark of a file of the glob
    expansion is the larger of its old watermark and its time stamp (the
    time stamp when it had none), and every other entry of the map is as
    it was. *)
Theorem watermark_is_maximum (mtime : string → Z) (candidateFiles : list ContentPath)
    (files changed : list string) (tbl tbl' : gmap string Z) :
  fastGlob_sync fs (map queryPattern candidateFiles) = Ok files →
  Forall (λ f, statSync_mtimeMs fs f = Ok (mtime f)) files →
  resolveChangedFiles fs candidateFiles tbl = (Ok changed, tbl') →
  (∀ f, f ∈ files →
     tbl' !! f = Some (match tbl !! f with
                       | Some w => Z.max w (mtime f)
                       | None => mtime f
                       end))
  ∧ (∀ f, f ∉ files → tbl' !! f = tbl !! f).
Proof.
  intros Hglob Hstat Hscan. unfold resolveChangedFiles in Hscan. rewrite Hglob in Hscan.
  destruct (scanFiles_spec fs mtime files [] tbl Hstat)
    as (changed0 & tbl0 & Hrun & _ & Hset & Hkeep & _).
  assert (tbl0 = tbl') as -> by congruence.
  split.
  - intros f Hf.
    destruct (gt (Finite (mtime f)) (prevModifiedOf tbl f)) eqn:Hnew.
    + rewrite (Hset f Hf Hnew). unfold prevModifiedOf in Hnew.
      destruct (tbl !! f) as [w|]; [|reflexivity].
      simpl in Hnew. apply Z.ltb_lt in Hnew. f_equal. lia.
    + rewrite Hkeep by (intros [_ Habs]; congruence).
      unfold prevModifiedOf in Hnew. destruct (tbl !! f) as [w|]; [|discriminate].
      simpl in Hnew. apply Z.ltb_ge in Hnew. f_equal. lia.
  - intros f Hf. apply Hkeep. by intros [Habs _].
Qed.

(** X3: the set a call returns has no duplicate and holds only files of
    the glob expansion, also when the expansion lists a file twice. *)
Theorem changed_set_is_a_set (candidateFiles : list ContentPath)
    (files changed : list string) (tbl tbl' : gmap string Z) :
  fastGlob_sync fs (map queryPattern candidateFiles) = Ok files →
  resolveChangedFiles fs candidateFiles tbl = (Ok changed, tbl') →
  NoDup changed ∧ ∀ x, x ∈ changed → x ∈ files.
Proof.
  intros Hglob Hscan. unfold resolveChangedFiles in Hscan. rewrite Hglob in Hscan.
  apply scanFiles_set in Hscan as [Hnd Hsub]. split; [apply Hnd, NoDup_nil_2|].
  intros x Hx. apply Hsub in Hx as [Hx|Hx]; [by apply elem_of_nil in Hx | done].
Qed.



End ScanInvariants.

(** X1 on the demo project: a watermark ahead of the file's time stamp
    stays where it is. *)
Lemma watermarks_never_regress_witness :
  (∃ w', (resolveChangedFiles Demo.demoFs [Demo.srcHtml]
            {[ "/proj/src/a.html"%string := 500 ]}).2 !! "/proj/src/a.html"%string = Some w'
         ∧ 500 ≤ w')
  ∧ (∃ w', (resolvedChangedContent Demo.demoLib Demo.demoFs (Demo.demoContext false)
              [Demo.srcHtml] {[ "/proj/src/a.html"%string := 500 ]}).2
             !! "/proj/src/a.html"%string = Some w'
           ∧ 500 ≤ w').
Proof.
  apply (watermarks_never_regress Demo.demoFs Demo.demoLib (Demo.demoContext false)
           [Demo.srcHtml] {[ "/proj/src/a.html"%string := 500 ]}
           "/proj/src/a.html"%string 500).
  reflexivity.
Defined.

(** X2 on the demo project. *)
Lemma watermark_is_maximum_witness :
  (∀ f, f ∈ ["/proj/src/a.html"; "/proj/src/b.html"]%string →
     (<[ "/proj/src/b.html"%string := 200 ]>
        ({[ "/proj/src/a.html"%string := 500 ]} : gmap string Z)) !! f
     = Some (match ({[ "/proj/src/a.html"%string := 500 ]} : gmap string Z) !! f with
             | Some w => Z.max w (Demo.mtime f)
             | None => Demo.mtime f
             end))
  ∧ (∀ f, f ∉ ["/proj/src/a.html"; "/proj/src/b.html"]%string →
     (<[ "/proj/src/b.html"%string := 200 ]>
        ({[ "/proj/src/a.html"%string := 500 ]} : gmap string Z)) !! f
     = ({[ "/proj/src/a.html"%string := 500 ]} : gmap string Z) !! f).
Proof.
  apply (watermark_is_maximum Demo.demoFs Demo.mtime [Demo.srcHtml]
           ["/proj/src/a.html"; "/proj/src/b.html"]%string ["/proj/src/b.html"%string]).
  - reflexivity.
  - repeat constructor.
  - vm_compute. reflexivity.
Defined.

(** X3 on the demo project. *)
Lemma changed_set_is_a_set_witness :
  NoDup ["/proj/src/a.html"; "/proj/src/b.html"]%string
  ∧ ∀ x, x ∈ ["/proj/src/a.html"; "/proj/src/b.html"]%string →
         x ∈ ["/proj/src/a.html"; "/proj/src/b.html"]%string.
Proof.
  apply (changed_set_is_a_set Demo.demoFs [Demo.srcHtml]
           ["/proj/src/a.html"; "/proj/src/b.html"]%string
           ["/proj/src/a.html"; "/proj/src/b.html"]%string ∅
           (resolveChangedFiles Demo.demoFs [Demo.srcHtml] ∅).2).
  - reflexivity.
  - vm_compute. reflexivity.
Defined.


(** ** Failures during a scan, and scans of a changing file system *)

Section ScanFailures.

Variable lib : NodeLib.
Variable fs : FileSystem.

(** The map after a loop that succeeds, at a file of the list. *)
Lemma scanFiles_max (mtime : string → Z) (files acc changed : list string)
    (tbl tbl' : gmap string Z) :
  Forall (λ f, statSync_mtimeMs fs f = Ok (mtime f)) files →
  scanFiles fs files acc tbl = (Ok changed, tbl') →
  ∀ f, f ∈ files →
    tbl' !! f = Some (match tbl !! f with
                      | Some w => Z.max w (mtime f)
                      | None => mtime f
                      end).
Proof.
  intros Hstat Hrun f Hf.
  destruct (scanFiles_spec fs mtime files acc tbl Hstat)
    as (changed0 & tbl0 & Hrun0 & _ & Hset & Hkeep & _).
  assert (tbl0 = tbl') as -> by congruence.
  destruct (gt (Finite (mtime f)) (prevModifiedOf tbl f)) eqn:Hnew.
  - rewrite (Hset f Hf Hnew). apply gt_prevModifiedOf in Hnew.
    destruct (tbl !! f) as [w|]; [|reflexivity]. f_equal. lia.
  - rewrite Hkeep by (intros [_ Habs]; congruence).
    assert (Hold : ¬ match tbl !! f with Some w => w < mtime f | None => True end)
      by (rewrite <- gt_prevModifiedOf; congruence).
    destruct (tbl !! f) as [w|]; [|done]. f_equal. lia.
Qed.

(** X5: [statSync] at line 157 is under no [try]. When it throws for a
    file of the glob expansion, [resolveChangedFiles] and
    [resolvedChangedContent] throw that exception and return no set. By
    then the map holds, for each file listed before the failing one, the
    larger of its old watermark and its time stamp (the time stamp when
    it had none); every other entry is untouched; and no later scan that
    finds the earlier files at the same time stamps reports them. *)
Theorem stat_failure_marks_earlier_files (mtime : string → Z) (context : Context)
    (candidateFiles : list ContentPath) (pre post : list string) (file : string)
    (e : Error) (tbl : gmap string Z) :
  fastGlob_sync fs (map queryPattern candidateFiles) = Ok (pre ++ file :: post) →
  Forall (λ f, statSync_mtimeMs fs f = Ok (mtime f)) pre →
  statSync_mtimeMs fs file = Throw e →
  ∃ tbl',
    resolveChangedFiles fs candidateFiles tbl = (Throw e, tbl')
    ∧ resolvedChangedContent lib fs context candidateFiles tbl = (Throw e, tbl')
    ∧ (∀ f, f ∈ pre →
         tbl' !! f = Some (match tbl !! f with
                           | Some w => Z.max w (mtime f)
                           | None => mtime f
                           end))
    ∧ (∀ f, f ∉ pre → tbl' !! f = tbl !! f)
    ∧ (∀ (fs2 : FileSystem) (candidateFiles2 : list ContentPath)
         (files2 changed2 : list string) (tbl2 : gmap string Z),
         fastGlob_sync fs2 (map queryPattern candidateFiles2) = Ok files2 →
         Forall (λ f, statSync_mtimeMs fs2 f = Ok (mtime f)) files2 →
         resolveChangedFiles fs2 candidateFiles2 tbl' = (Ok changed2, tbl2) →
         ∀ f, f ∈ pre → f ∉ changed2).
Proof.
  intros Hglob Hstat Hthrow.
  destruct (scanFiles_spec fs mtime pre [] tbl Hstat)
    as (changedPre & tbl' & Hrun & _ & _ & Hkeep & _).
  assert (Hscan : resolveChangedFiles fs candidateFiles tbl = (Throw e, tbl')).
  { unfold resolveChangedFiles. rewrite Hglob, scanFiles_app, Hrun.
    cbn [scanFiles]. by rewrite Hthrow. }
  assert (Hsettled : ∀ f, f ∈ pre → gt (Finite (mtime f)) (prevModifiedOf tbl' f) = false)
    by apply (scanFiles_settled fs mtime pre [] changedPre tbl tbl' Hstat Hrun).
  exists tbl'. split; [exact Hscan|]. split; [|split; [|split]].
  - unfold resolvedChangedContent. by rewrite Hscan.
  - apply (scanFiles_max mtime pre [] changedPre tbl tbl' Hstat Hrun).
  - intros f Hf. apply Hkeep. by intros [Habs _].
  - intros fs2 candidateFiles2 files2 changed2 tbl2 Hglob2 Hstat2 Hscan2 f Hf Hin.
    unfold resolveChangedFiles in Hscan2. rewrite Hglob2 in Hscan2.
    destruct (scanFiles_spec fs2 mtime files2 [] tbl' Hstat2)
      as (changed0 & tbl0 & Hrun0 & Hmem & _).
    assert (changed0 = changed2) as -> by congruence.
    apply Hmem in Hin as [Habs|[_ Hnew]]; [by apply elem_of_nil in Habs|].
    rewrite (Hsettled f Hf) in Hnew. discriminate.
Qed.

(** X7: when the glob expansion and every [statSync] succeed, a second
    call of [resolvedChangedContent] on the same file system, with the map
    the first call left, returns the raw entries and nothing else,
    whether the first call returned or threw on a read. *)
Theorem resolvedChangedContent_second_call (mtime : string → Z) (context : Context)
    (candidateFiles : list ContentPath) (files : list string) (tbl : gmap string Z) :
  fastGlob_sync fs (map queryPattern candidateFiles) = Ok files →
  Forall (λ f, statSync_mtimeMs fs f = Ok (mtime f)) files →
  resolvedChangedContent lib fs context candidateFiles
    (resolvedChangedContent lib fs context candidateFiles tbl).2
  = (Ok (declaredRawEntries (content_files (tailwindConfig context))),
     (resolvedChangedContent lib fs context candidateFiles tbl).2).
Proof.
  intros Hglob Hstat.
  destruct (scanFiles_spec fs mtime files [] tbl Hstat) as (changed & tbl' & Hrun & _).
  assert (Hscan : resolveChangedFiles fs candidateFiles tbl = (Ok changed, tbl')).
  { unfold resolveChangedFiles. by rewrite Hglob. }
  rewrite (resolvedChangedContent_reads lib fs context _ _ _ _ Hscan). cbn [snd].
  rewrite (resolvedChangedContent_reads lib fs context _ _ _ _
             (resolveChangedFiles_settled fs mtime _ _ _ _ _ Hglob Hstat Hscan)).
  cbn [readChangedFiles]. by rewrite rawContent_declared.
Qed.

End ScanFailures.

Section ChangingFileSystem.

Variables fs1 fs2 : FileSystem.

(** X8: after a first scan from an empty map, a scan of the file system
    as it is later reports exactly the files of the later glob expansion
    that the first expansion did not list or whose time stamp has grown
    since; a file whose time stamp is the same or smaller, and a file that
    is no longer listed, are not reported. *)
Theorem second_scan_reports_new_and_touched (mtime1 mtime2 : string → Z)
    (candidateFiles : list ContentPath) (files1 files2 changed1 : list string)
    (tbl1 : gmap string Z) :
  fastGlob_sync fs1 (map queryPattern candidateFiles) = Ok files1 →
  Forall (λ f, statSync_mtimeMs fs1 f = Ok (mtime1 f)) files1 →
  fastGlob_sync fs2 (map queryPattern candidateFiles) = Ok files2 →
  Forall (λ f, statSync_mtimeMs fs2 f = Ok (mtime2 f)) files2 →
  resolveChangedFiles fs1 candidateFiles ∅ = (Ok changed1, tbl1) →
  ∃ changed2 tbl2,
    resolveChangedFiles fs2 candidateFiles tbl1 = (Ok changed2, tbl2)
    ∧ ∀ f, f ∈ changed2 ↔ f ∈ files2 ∧ (f ∉ files1 ∨ mtime1 f < mtime2 f).
Proof.
  intros Hglob1 Hstat1 Hglob2 Hstat2 Hscan1.
  unfold resolveChangedFiles in Hscan1. rewrite Hglob1 in Hscan1.
  destruct (scanFiles_spec fs1 mtime1 files1 [] ∅ Hstat1)
    as (changed0 & tbl0 & Hrun1 & _ & Hset1 & Hkeep1 & _).
  assert (tbl0 = tbl1) as -> by congruence.
  destruct (scanFiles_spec fs2 mtime2 files2 [] tbl1 Hstat2)
    as (changed2 & tbl2 & Hrun2 & Hmem2 & _).
  exists changed2, tbl2. split; [unfold resolveChangedFiles; by rewrite Hglob2|].
  intros f. rewrite Hmem2.
  assert (Hprev : prevModifiedOf tbl1 f
                  = if bool_decide (f ∈ files1) then Finite (mtime1 f) else NegInfinity).
  { unfold prevModifiedOf. case_bool_decide as Hin.
    - rewrite (Hset1 f Hin); [done|]. unfold prevModifiedOf. by rewrite lookup_empty.
    - rewrite Hkeep1 by (by intros [? _]). by rewrite lookup_empty. }
  rewrite Hprev. case_bool_decide as Hin; simpl.
  - rewrite Z.ltb_lt. split.
    + intros [Habs|[Hf Hlt]]; [by apply elem_of_nil in Habs|]. split; [done|by right].
    + intros [Hf [Hout|Hlt]]; [done|]. right. by split.
  - split.
    + intros [Habs|[Hf _]]; [by apply elem_of_nil in Habs|]. split; [done|by left].
    + intros [Hf _]. right. by split.
Qed.

End ChangingFileSystem.

(** X5 on the demo project: gone.html is listed after a.html but is no
    longer there. The call throws ENOENT and leaves 100 for a.html, which
    it never returned; b.html, listed after, has no entry. *)
Lemma stat_failure_marks_earlier_files_witness :
  resolveChangedFiles Demo.racyFs [Demo.srcHtml] ∅
    = (Throw "ENOENT"%string, {[ "/proj/src/a.html"%string := 100 ]})
  ∧ resolvedChangedContent Demo.demoLib Demo.racyFs (Demo.demoContext false)
      [Demo.srcHtml] ∅
    = (Throw "ENOENT"%string, {[ "/proj/src/a.html"%string := 100 ]})
  ∧ ({[ "/proj/src/a.html"%string := 100 ]} : gmap string Z) !! "/proj/src/a.html"%string
    = Some 100
  ∧ ({[ "/proj/src/a.html"%string := 100 ]} : gmap string Z) !! "/proj/src/b.html"%string
    = None
  ∧ (∀ (fs2 : FileSystem) (candidateFiles2 : list ContentPath)
       (files2 changed2 : list string) (tbl2 : gmap string Z),
       fastGlob_sync fs2 (map queryPattern candidateFiles2) = Ok files2 →
       Forall (λ f, statSync_mtimeMs fs2 f = Ok (Demo.mtime f)) files2 →
       resolveChangedFiles fs2 candidateFiles2 {[ "/proj/src/a.html"%string := 100 ]}
         = (Ok changed2, tbl2) →
       "/proj/src/a.html"%string ∉ changed2).
Proof.
  destruct (stat_failure_marks_earlier_files Demo.demoLib Demo.racyFs Demo.mtime
              (Demo.demoContext false) [Demo.srcHtml]
              ["/proj/src/a.html"%string] ["/proj/src/b.html"%string]
              "/proj/src/gone.html"%string "ENOENT"%string ∅)
    as (tbl' & Hscan & Hcontent & Hpre & Hother & Hlater).
  - reflexivity.
  - repeat constructor.
  - reflexivity.
  - assert (Heval : resolveChangedFiles Demo.racyFs [Demo.srcHtml] ∅
                    = (Throw "ENOENT"%string, {[ "/proj/src/a.html"%string := 100 ]}))
      by (vm_compute; reflexivity).
    rewrite Heval in Hscan. injection Hscan as <-.
    split; [exact Heval|]. split; [exact Hcontent|]. split; [|split].
    + apply (Hpre "/proj/src/a.html"%string). left.
    + rewrite (Hother "/proj/src/b.html"%string); [reflexivity|].
      intros Hin. apply list_elem_of_singleton in Hin. discriminate.
    + intros fs2 candidateFiles2 files2 changed2 tbl2 Hglob2 Hstat2 Hscan2.
      apply (Hlater fs2 candidateFiles2 files2 changed2 tbl2 Hglob2 Hstat2 Hscan2). left.
Defined.

(** X7 on the demo project, after a first call that threw on secret.html. *)
Lemma resolvedChangedContent_second_call_witness :
  resolvedChangedContent Demo.demoLib Demo.demoFs (Demo.demoContext false) [Demo.srcAll]
    (resolvedChangedContent Demo.demoLib Demo.demoFs (Demo.demoContext false)
       [Demo.srcAll] ∅).2
  = (Ok (declaredRawEntries (content_files (tailwindConfig (Demo.demoContext false)))),
     (resolvedChangedContent Demo.demoLib Demo.demoFs (Demo.demoContext false)
        [Demo.srcAll] ∅).2).
Proof.
  apply (resolvedChangedContent_second_call Demo.demoLib Demo.demoFs Demo.mtime
           (Demo.demoContext false) [Demo.srcAll]
           ["/proj/src/a.html"; "/proj/src/secret.html"; "/proj/src/b.html"]%string ∅).
  - reflexivity.
  - repeat constructor.
Defined.

(** X8 on the demo project: a.html was saved again, c.html is new with an
    old time stamp, b.html is as it was. *)
Lemma second_scan_reports_new_and_touched_witness :
  ∃ changed2 tbl2,
    resolveChangedFiles Demo.touchedFs [Demo.srcHtml]
      (resolveChangedFiles Demo.demoFs [Demo.srcHtml] ∅).2 = (Ok changed2, tbl2)
    ∧ ∀ f, f ∈ changed2 ↔
           f ∈ ["/proj/src/a.html"; "/proj/src/b.html"; "/proj/src/c.html"]%string
           ∧ (f ∉ ["/proj/src/a.html"; "/proj/src/b.html"]%string
              ∨ Demo.mtime f < Demo.touchedMtime f).
Proof.
  apply (second_scan_reports_new_and_touched Demo.demoFs Demo.touchedFs
           Demo.mtime Demo.touchedMtime [Demo.srcHtml]
           ["/proj/src/a.html"; "/proj/src/b.html"]%string
           ["/proj/src/a.html"; "/proj/src/b.html"; "/proj/src/c.html"]%string
           ["/proj/src/a.html"; "/proj/src/b.html"]%string).
  - reflexivity.
  - repeat constructor.
  - reflexivity.
  - repeat constructor.
  - vm_compute. reflexivity.
Defined.

(** ** From configuration entries to glob patterns *)

Section Pipeline.

Variable lib : NodeLib.
Variable fs : FileSystem.

Lemma flatMapM_app {A B} (f : A -> result (list B)) (l1 l2 : list A) (s1 s2 : list B) :
  flatMapM f l1 = Ok s1 → flatMapM f l2 = Ok s2 →
  flatMapM f (l1 ++ l2) = Ok (s1 ++ s2).
Proof.
  revert s1. induction l1 as [|x rest IH]; intros s1; simpl.
  - by intros [= <-] ->.
  - destruct (f x) as [ys|e]; simpl; [|discriminate].
    destruct (flatMapM f rest) as [zs|e] eqn:Hrest; simpl; [|discriminate].
    intros [= <-] H2. rewrite (IH zs eq_refl H2). simpl. by rewrite app_assoc.
Qed.

Lemma splitContentPath_fields (filePath : string) :
  ∃ s0, splitContentPath lib filePath = [s0]
    ∧ original s0 = normalizePath lib filePath
    ∧ glob s0 = (if isGlob lib (normalizePath lib filePath)
                 then Some (parseGlob lib (normalizePath lib filePath)).2
                 else None).
Proof.
  unfold splitContentPath.
  destruct (isGlob lib (normalizePath lib filePath)).
  - destruct (parseGlob lib (normalizePath lib filePath)) as [b g]. by eexists.
  - by eexists.
Qed.

Lemma parseContentPath_shape (context : Context) (filePath : string) :
  ∃ s0 s,
    splitContentPath lib filePath = [s0]
    ∧ original s0 = normalizePath lib filePath
    ∧ s = withBase s0 (path_resolve lib (resolveFrom lib context ++ [base s0]))
    ∧ ((parseContentPath lib fs context (FilePath filePath) = Ok [s]
        ∧ ¬ ∃ real, realpathSync fs (base s) = Ok real ∧ real ≠ base s)
       ∨ ∃ real, realpathSync fs (base s) = Ok real ∧ real ≠ base s
           ∧ parseContentPath lib fs context (FilePath filePath) = Ok [s; withBase s real]).
Proof.
  destruct (splitContentPath_fields filePath) as (s0 & Hsplit & Horig & _).
  exists s0, (withBase s0 (path_resolve lib (resolveFrom lib context ++ [base s0]))).
  split; [exact Hsplit|]. split; [exact Horig|]. split; [reflexivity|].
  cbn [parseContentPath]. rewrite Hsplit. cbn [resolveRelativePaths map flatMapM].
  rewrite resolvePathSymlinks_cases.
  set (s := withBase s0 _).
  destruct (realpathSync fs (base s)) as [real|e] eqn:Hreal.
  - destruct (String.eqb real (base s)) eqn:Heq.
    + left. split; [reflexivity|]. apply String.eqb_eq in Heq.
      intros (real' & [= <-] & Hne). done.
    + right. exists real. apply String.eqb_neq in Heq. done.
  - left. split; [reflexivity|]. by intros (real' & [=] & _).
Qed.

(** X9: a string entry always gives one or two specs, and never an
    exception. With n the normalized string, the first spec has n as
    [original], the glob that [parseGlob] split off (null when n is not a
    glob) and, as base, [path.resolve] of [resolveFrom] and the base of the
    split (n itself when n is not a glob). A second spec is there exactly
    when [realpathSync] succeeds on that base with a different path; it
    has the same [original] and [glob] and the real path as base. *)
Theorem parseContentPath_one_or_two (context : Context) (filePath : string) :
  let n := normalizePath lib filePath in
  let resolved :=
    path_resolve lib
      (resolveFrom lib context ++ [if isGlob lib n then (parseGlob lib n).1 else n]) in
  let pattern := if isGlob lib n then Some (parseGlob lib n).2 else None in
  (parseContentPath lib fs context (FilePath filePath)
     = Ok [ {| original := n; base := resolved; glob := pattern |} ]
   ∧ ¬ ∃ real, realpathSync fs resolved = Ok real ∧ real ≠ resolved)
  ∨ ∃ real, realpathSync fs resolved = Ok real ∧ real ≠ resolved
      ∧ parseContentPath lib fs context (FilePath filePath)
        = Ok [ {| original := n; base := resolved; glob := pattern |};
               {| original := n; base := real; glob := pattern |} ].
Proof.
  intros n resolved pattern.
  assert (Hfirst : resolveRelativePaths lib context (splitContentPath lib filePath)
                   = [ {| original := n; base := resolved; glob := pattern |} ]).
  { unfold splitContentPath, resolved, pattern. fold n.
    destruct (isGlob lib n); [|reflexivity].
    by destruct (parseGlob lib n) as [b g]. }
  cbn [parseContentPath]. rewrite Hfirst. cbn [flatMapM].
  rewrite resolvePathSymlinks_cases. cbn [base].
  destruct (realpathSync fs resolved) as [real|e].
  - destruct (String.eqb real resolved) eqn:Heq.
    + left. split; [reflexivity|]. apply String.eqb_eq in Heq.
      intros (real' & [= <-] & Hne). done.
    + right. exists real. apply String.eqb_neq in Heq. done.
  - left. split; [reflexivity|]. by intros (real' & [=] & _).
Qed.

Lemma parseContentPath_length (context : Context) (entry : ContentEntry) :
  ∃ paths, parseContentPath lib fs context entry = Ok paths
    ∧ (if isFilePath entry then 1 ≤ length paths ≤ 2 else length paths = 0)%nat.
Proof.
  destruct entry as [p|raw ext]; [|by exists []].
  destruct (parseContentPath_shape context p)
    as (s0 & s & _ & _ & _ & [[-> _]|(real & _ & _ & ->)]);
    eexists; (split; [reflexivity|]); simpl; lia.
Qed.

(** X10: [parseCandidateFiles] returns at least one and at most two specs
    per string entry of the configuration, and none for the others. *)
Theorem parseCandidateFiles_count (context : Context) (config : Config) :
  ∃ specs, parseCandidateFiles lib fs context config = Ok specs
    ∧ (length (List.filter isFilePath (content_files config)) ≤ length specs
       ≤ 2 * length (List.filter isFilePath (content_files config)))%nat.
Proof.
  unfold parseCandidateFiles. cbn zeta.
  induction (content_files config) as [|entry rest IH]; cbn [flatMapM List.filter].
  - exists []. split; [reflexivity|]. simpl. lia.
  - destruct IH as (zs & -> & Hzs).
    destruct (parseContentPath_length context entry) as (ys & -> & Hys).
    exists (ys ++ zs). split; [reflexivity|]. rewrite length_app.
    destruct (isFilePath entry); simpl in *; lia.
Qed.

(** X11: the specs of a configuration are the specs of its entries in
    declaration order: a list of entries put after another adds its specs
    after the specs of the other, and changes none of them. *)
Theorem parseCandidateFiles_app (context : Context) (files1 files2 : list ContentEntry)
    (flags : gmap string bool) :
  ∃ specs1 specs2,
    parseCandidateFiles lib fs context (mkConfig files1 flags) = Ok specs1
    ∧ parseCandidateFiles lib fs context (mkConfig files2 flags) = Ok specs2
    ∧ parseCandidateFiles lib fs context (mkConfig (files1 ++ files2) flags)
      = Ok (specs1 ++ specs2).
Proof.
  destruct (flatMapM_total (parseContentPath lib fs context) files1) as [specs1 H1];
    [intros x _; apply parseContentPath_total|].
  destruct (flatMapM_total (parseContentPath lib fs context) files2) as [specs2 H2];
    [intros x _; apply parseContentPath_total|].
  exists specs1, specs2. split; [exact H1|]. split; [exact H2|].
  unfold parseCandidateFiles in *. simpl in *. by apply flatMapM_app.
Qed.

Lemma parseContentPath_fields (context : Context) (filePath : string)
    (specs : list ContentPath) (s : ContentPath) :
  parseContentPath lib fs context (FilePath filePath) = Ok specs →
  s ∈ specs →
  original s = normalizePath lib filePath
  ∧ glob s = (if isGlob lib (normalizePath lib filePath)
              then Some (parseGlob lib (normalizePath lib filePath)).2
              else None).
Proof.
  intros Hparse Hs.
  destruct (parseContentPath_shape context filePath)
    as (s0 & s1 & Hsplit & Horig & -> & Hcases).
  destruct (splitContentPath_fields filePath) as (s0' & Hsplit' & _ & Hglob).
  assert (s0' = s0) as -> by congruence.
  destruct Hcases as [[Hone _]|(real & _ & _ & Htwo)].
  - assert (specs = [withBase s0 (path_resolve lib (resolveFrom lib context ++ [base s0]))])
      as -> by congruence.
    apply list_elem_of_singleton in Hs as ->. done.
  - rewrite Htwo in Hparse. injection Hparse as <-.
    repeat (apply elem_of_cons in Hs as [->|Hs]); [done|done|].
    by apply elem_of_nil in Hs.
Qed.

(** X12: the pattern that [resolveChangedFiles] hands to the glob engine
    for a spec that [parseContentPath] made from a string. With n the
    normalized string: when n starts with "!" the pattern is n itself,
    not resolved against any directory; otherwise, when n is not a glob,
    it is the base of the spec; otherwise it is the base, a slash and the
    glob that [parseGlob] split off, or the base alone when that glob is
    the empty string. *)
Theorem pattern_of_parsed_spec (context : Context) (filePath : string)
    (specs : list ContentPath) (s : ContentPath) :
  parseContentPath lib fs context (FilePath filePath) = Ok specs →
  s ∈ specs →
  queryPattern s =
    if startsWith (normalizePath lib filePath) "!" then normalizePath lib filePath
    else if isGlob lib (normalizePath lib filePath)
         then if truthy (parseGlob lib (normalizePath lib filePath)).2
              then String.append (base s)
                     (String.append "/" (parseGlob lib (normalizePath lib filePath)).2)
              else base s
         else base s.
Proof.
  intros Hparse Hs.
  destruct (parseContentPath_fields context filePath specs s Hparse Hs) as [Horig Hglob].
  unfold queryPattern. rewrite Horig, Hglob.
  destruct (startsWith (normalizePath lib filePath) "!"); [reflexivity|].
  by destruct (isGlob lib (normalizePath lib filePath)).
Qed.

End Pipeline.

(** X9 on the demo project: /proj/link is a link to /proj/target, so the
    entry "link/*.css" gives two specs. *)
Lemma parseContentPath_one_or_two_witness :
  parseContentPath Demo.demoLib Demo.demoFs (Demo.demoContext false) (FilePath "link/*.css")
  = Ok [ {| original := "link/*.css"; base := "/proj/link"; glob := Some "*.css"%string |};
         {| original := "link/*.css"; base := "/proj/target"; glob := Some "*.css"%string |} ].
Proof.
  destruct (parseContentPath_one_or_two Demo.demoLib Demo.demoFs (Demo.demoContext false)
              "link/*.css") as [[_ Hnone]|(real & Hreal & _ & Htwo)].
  - exfalso. apply Hnone. exists "/proj/target"%string.
    split; [reflexivity | discriminate].
  - vm_compute in Hreal. injection Hreal as <-. exact Htwo.
Defined.

(** X12 on the demo project with /proj a symbolic link: the second spec
    of the exclusion entry still gives the relative pattern. *)
Lemma pattern_of_parsed_spec_witness :
  queryPattern (withBase Demo.exclusion "/data/proj") = "!link/*.css"%string.
Proof.
  apply (pattern_of_parsed_spec Demo.demoLib Demo.movedFs (Demo.demoContext false)
           "!link/*.css" [Demo.exclusion; withBase Demo.exclusion "/data/proj"]).
  - reflexivity.
  - right. left.
Defined.
